(** * Request and validation helpers of the Theta Chain API test suite

    A shallow embedding of [src/utils/utils.js] ([makeRequest],
    [validateSchema], [validateArraySchema], [measurePerformance]) together
    with the constants of [config/config.js] the helpers read, and the
    properties of the helper module proved over that embedding.

    Conventions.
    - A JS object used as a key-value record is a [gmap string value]; the
      object spread [{...a, ...b}] is the right-biased overlay [spread a b].
    - An abrupt completion (a [throw], a rejected promise) is the [Throw]
      constructor of [completion]; [await] and [;] are the monadic bind.
    - The HTTP transport (the [axios] call) is a parameter of [makeRequest]:
      a function from the request configuration to the outcome of the call.
    - Console output is not modelled; what a [console.error] call evaluates
      for its arguments is, where evaluating it can throw. *)

From stdpp Require Import gmap strings list fin_maps pretty.
From Stdlib Require Import ZArith.

Set Warnings "-register-all".

(** ** JavaScript values and completions *)

(** The values the helpers are handed: parsed JSON bodies (and [undefined],
    which reading an absent property yields).  A string is its sequence of
    code units.  No helper computes on the numbers of a body: [VNum] keeps
    the integral ones (timeouts, counts), which is all the helpers build. *)
Inductive value : Type :=
  | VUndefined
  | VNull
  | VBool (b : bool)
  | VNum (n : Z)
  | VStr (s : string)
  | VArr (items : list value)
  | VObj (props : gmap string value).

Abbreviation object := (gmap string value).

(** What a [throw] or a rejected promise carries: an error object (a
    [TypeError], or one of another class such as a failed assertion), or any
    value that is no error object, [null] and [undefined] among them. *)
Inductive exn : Type :=
  | TypeError (msg : string)
  | ErrorObject (name msg : string)
  | ThrownValue (v : value).

Inductive completion (E A : Type) : Type :=
  | Normal (a : A)
  | Throw (e : E).
Arguments Normal {E A} a.
Arguments Throw {E A} e.

#[global] Instance completion_ret {E} : MRet (completion E) := λ A a, Normal a.
#[global] Instance completion_bind {E} : MBind (completion E) := λ A B k c,
  match c with
  | Normal a => k a
  | Throw e => Throw e
  end.

(** [try { body } catch (error) { handler }] *)
Definition try_catch {E E' A} (body : completion E A)
    (handler : E → completion E' A) : completion E' A :=
  match body with
  | Normal a => Normal a
  | Throw error => handler error
  end.

(** [{...base, ...extra}]: the own properties of [base] overlaid by those
    of [extra]. *)
Definition spread (base extra : object) : object := extra ∪ base.

(** [array.push(x)] on the array held in a local variable. *)
Definition push {A} (array : list A) (x : A) : list A := array ++ [x].

(** [array.forEach((item, index) => ...)], the callback updating a captured
    variable of type [V]; a callback that throws ends the loop. *)
Fixpoint forEach_from {E A V} (callback : A → nat → V → completion E V)
    (index : nat) (array : list A) (s : V) : completion E V :=
  match array with
  | [] => Normal s
  | item :: rest =>
      s' ← callback item index s;
      forEach_from callback (S index) rest s'
  end.

Definition forEach {E A V} (callback : A → nat → V → completion E V)
    (array : list A) (s : V) : completion E V :=
  forEach_from callback 0 array s.

(** [`${index}`] for an array index: its decimal numeral. *)
Definition Number_toString (index : nat) : string := pretty index.

Definition Array_isArray (v : value) : bool :=
  match v with
  | VArr _ => true
  | _ => false
  end.

Definition elements (v : value) : list value :=
  match v with
  | VArr items => items
  | _ => []
  end.

(** Own property keys of an array or of a string of [len] elements:
    ["length"] and the canonical numerals of the indices below [len]. *)
Definition indexed_own (len : nat) (field : string) : bool :=
  bool_decide (field = "length")
  || existsb (λ i, bool_decide (field = Number_toString i)) (seq 0 len).

(** [response.hasOwnProperty(field)]: the property [hasOwnProperty] is looked
    up on [response] first and the value found is then called.  On [null] and
    [undefined] the lookup throws.  A record that has an own property named
    [hasOwnProperty] shadows [Object.prototype.hasOwnProperty] with a value
    that is not callable (no [value] is), so the call throws.  Otherwise the
    builtin answers whether [field] is an own property. *)
Definition hasOwnProperty (response : value) (field : string)
    : completion exn bool :=
  match response with
  | VUndefined =>
      Throw (TypeError
        "Cannot read properties of undefined (reading 'hasOwnProperty')")
  | VNull =>
      Throw (TypeError
        "Cannot read properties of null (reading 'hasOwnProperty')")
  | VBool _ | VNum _ => Normal false
  | VStr s => Normal (indexed_own (String.length s) field)
  | VArr items => Normal (indexed_own (length items) field)
  | VObj props =>
      match props !! "hasOwnProperty" with
      | Some _ => Throw (TypeError "response.hasOwnProperty is not a function")
      | None => Normal (bool_decide (is_Some (props !! field)))
      end
  end.

(** Records that leave [Object.prototype.hasOwnProperty] visible: they have
    no own property of that name. *)
Definition plain (props : object) : Prop := props !! "hasOwnProperty" = None.

(** ** Configuration ([config/config.js]) *)

Module config.
Definition baseURL : string := "http://localhost:5006".
Module timeouts.
Definition request : Z := 5000.
Definition test : Z := 10000.
End timeouts.
End config.

(** ** Schema validator *)

Module Schema.
Record t : Type := mk { required : list string; optional : list string }.
End Schema.

Module ValidationResult.
Record t : Type := mk { isValid : bool; errors : list string }.
End ValidationResult.

Definition validateSchema (response : value) (schema : Schema.t)
    : completion exn ValidationResult.t :=
  errors ← forEach (λ field _ errors,
      has ← hasOwnProperty response field;
      if negb has
      then Normal (push errors ("Missing required field: " +:+ field))
      else Normal errors)
    (Schema.required schema) [];
  Normal {| ValidationResult.isValid := (length errors =? 0)%nat;
            ValidationResult.errors := errors |}.

Definition validateArraySchema (response : value) (schema : Schema.t)
    : completion exn ValidationResult.t :=
  if negb (Array_isArray response)
  then Normal {| ValidationResult.isValid := false;
                 ValidationResult.errors := ["Response is not an array"] |}
  else
    errors ← forEach (λ item index errors,
        validation ← validateSchema item schema;
        forEach (λ error _ errors,
            Normal (push errors
              ("Item " +:+ Number_toString index +:+ ": " +:+ error)))
          (ValidationResult.errors validation) errors)
      (elements response) [];
    Normal {| ValidationResult.isValid := (length errors =? 0)%nat;
              ValidationResult.errors := errors |}.

(** The messages of one element's validation, each prefixed with the
    element's index: what the inner loop of [validateArraySchema] pushes. *)
Definition itemErrors (index : nat) (validation : ValidationResult.t)
    : list string :=
  (λ error, "Item " +:+ Number_toString index +:+ ": " +:+ error)
    <$> ValidationResult.errors validation.

(** ** Request executor *)

Module Response.
Record t : Type := mk {
  status : Z;
  data : value;
  headers : gmap string string
}.
End Response.

(** The request handle the transport attaches to an error once the request
    has been dispatched. *)
Inductive ClientRequest : Type :=
  | client_request.

(** What the transport throws: an error with its [message], carrying the
    [response] when one was received and the [request] when one was
    dispatched (both [undefined] otherwise). *)
Module AxiosError.
Record t : Type := mk {
  message : string;
  response : option Response.t;
  request : option ClientRequest
}.
End AxiosError.

(** What the transport rejects with: an error object, or, when an option
    that is a function (an adapter, an interceptor) rejects with it, [null]
    or [undefined]. *)
Inductive rejection : Type :=
  | RejectError (error : AxiosError.t)
  | RejectNull
  | RejectUndefined.

(** The transport: the outcome of [await axios(cfg)]. *)
Abbreviation transport := (object → completion rejection Response.t).

(** The object behind the caught [error], as its first property read,
    [error.message], finds it: reading a property of [null] or [undefined]
    throws. *)
Definition error_object (error : rejection) : completion exn AxiosError.t :=
  match error with
  | RejectError error => Normal error
  | RejectNull =>
      Throw (TypeError "Cannot read properties of null (reading 'message')")
  | RejectUndefined =>
      Throw (TypeError
        "Cannot read properties of undefined (reading 'message')")
  end.

Definition defaultOptions : object :=
  {[ "timeout" := VNum config.timeouts.request;
     "headers" := VObj {[ "Content-Type" := VStr "application/json" ]} ]}.

(** The argument of the [axios] call, [{url, ...defaultOptions, ...options}];
    [options] is [None] when the caller leaves it out ([options = {}]). *)
Definition requestConfig (endpoint : string) (options : option object)
    : object :=
  let options := default ∅ options in
  let url := config.baseURL +:+ endpoint in
  spread (spread {[ "url" := VStr url ]} defaultOptions) options.

Definition makeRequest (axios : transport) (endpoint : string)
    (options : option object) : completion exn Response.t :=
  try_catch
    (response ← axios (requestConfig endpoint options);
     Normal response)
    (λ error,
      (* [console.error(..., error.message)] comes first in the handler *)
      error ← error_object error;
      match AxiosError.response error with
      | Some response => Normal response
      | None =>
          match AxiosError.request error with
          | Some _ =>
              Normal {| Response.status := 0;
                        Response.data :=
                          VObj {[ "error" := VStr "No response received" ]};
                        Response.headers := ∅ |}
          | None =>
              Normal {| Response.status := 0;
                        Response.data :=
                          VObj {[ "error" := VStr (AxiosError.message error) ]};
                        Response.headers := ∅ |}
          end
      end).

(** The response the transport received from the server, if any: the one it
    resolved with, or the one attached to the error it threw. *)
Definition received (outcome : completion rejection Response.t)
    : option Response.t :=
  match outcome with
  | Normal response => Some response
  | Throw (RejectError error) => AxiosError.response error
  | Throw _ => None
  end.

(** The [headers] option of a configuration, as a mapping. *)
Definition headersOf (cfg : object) : object :=
  match cfg !! "headers" with
  | Some (VObj h) => h
  | _ => ∅
  end.

(** Following the spec's words, for comparison with [requestConfig]: the
    default headers merged with the caller's, the caller's entries taking
    precedence. *)
Definition mergedHeaders (options : option object) : object :=
  headersOf (default ∅ options) ∪ headersOf defaultOptions.

(** Following the spec's words: the headers sent with a request are the
    default headers merged with the caller's. *)
Definition headersMerged (endpoint : string) (options : option object)
    : Prop :=
  headersOf (requestConfig endpoint options) = mergedHeaders options.

(** ** Performance timer *)

Module PerformanceResult.
Record t (A : Type) : Type := mk {
  duration : Z;
  isWithinLimit : bool;
  response : A
}.
Arguments mk {A} _ _ _.
Arguments duration {A} _.
Arguments isWithinLimit {A} _.
Arguments response {A} _.
End PerformanceResult.

Section Timer.
(** The state of the world an asynchronous operation runs in, of which the
    timer only reads the wall clock, in milliseconds. *)
Context {World : Type} (clock : World → Z).

(** An asynchronous operation: it changes the world and completes. *)
Definition task (A : Type) : Type := World → completion exn A * World.

#[local] Instance task_ret : MRet task := λ A a w, (Normal a, w).

(** [await]: the continuation runs in the world the operation left, unless
    the operation threw. *)
#[local] Instance task_bind : MBind task := λ A B k t w,
  match t w with
  | (Normal a, w') => k a w'
  | (Throw e, w') => (Throw e, w')
  end.

(** [Date.now()] *)
Definition Date_now : task Z := λ w, (Normal (clock w), w).

(** [maxTime] is [None] when the caller leaves it out ([maxTime = 1000]). *)
Definition measurePerformance {A : Type} (requestFn : task A)
    (maxTime : option Z) : task (PerformanceResult.t A) :=
  let maxTime := default 1000%Z maxTime in
  startTime ← Date_now;
  response ← requestFn;
  endTime ← Date_now;
  let duration := (endTime - startTime)%Z in
  mret {| PerformanceResult.duration := duration;
          PerformanceResult.isWithinLimit := (duration <=? maxTime)%Z;
          PerformanceResult.response := response |}.
End Timer.
Arguments task World A : clear implicits.

(** ** Further parts of the helper module *)

(** The values on which [response.hasOwnProperty] cannot be called: [null]
    and [undefined], which have no properties, and the records whose own
    [hasOwnProperty] entry hides the builtin. *)
Definition uncallable (x : value) : Prop :=
  match x with
  | VUndefined | VNull => True
  | VObj props => ¬ plain props
  | _ => False
  end.

Section Runner.
Context {World : Type}.

#[local] Existing Instance task_ret.
#[local] Existing Instance task_bind.

(** [throw error] inside an asynchronous operation. *)
Definition task_throw {A : Type} (error : exn) : task World A :=
  λ w, (Throw error, w).

(** [try { body } catch (error) { handler }] around awaited operations: the
    handler runs in the world the body left when it threw. *)
Definition task_try_catch {A : Type} (body : task World A)
    (handler : exn → task World A) : task World A :=
  λ w, match body w with
       | (Normal a, w') => (Normal a, w')
       | (Throw error, w') => handler error w'
       end.

(** [error.message] on a caught value: the message of an error object, the
    own property of a thrown record, [undefined] on a thrown primitive; on
    [null] and [undefined] the read throws. *)
Definition exn_message (error : exn) : completion exn value :=
  match error with
  | TypeError msg | ErrorObject _ msg => Normal (VStr msg)
  | ThrownValue VNull =>
      Throw (TypeError "Cannot read properties of null (reading 'message')")
  | ThrownValue VUndefined =>
      Throw (TypeError
        "Cannot read properties of undefined (reading 'message')")
  | ThrownValue (VObj props) => Normal (default VUndefined (props !! "message"))
  | ThrownValue _ => Normal VUndefined
  end.

(** A step that does not touch the world. *)
Definition task_step {A : Type} (step : completion exn A) : task World A :=
  λ w, (step, w).

(** [createTestCase]: the runner's [test] is called with the name, an
    asynchronous body and the configured test timeout.  The body awaits
    [testFn]; when that throws, it evaluates [error.message] for the
    [console.error] call and then rethrows [error].  The runner is a
    parameter; the body resolves to [undefined], here [tt]. *)
Definition createTestCase {A R : Type}
    (test : string → task World unit → Z → R)
    (name : string) (testFn : task World A) : R :=
  test name
    (task_try_catch (_ ← testFn; mret tt)
       (λ error, _ ← task_step (exn_message error); task_throw error))
    config.timeouts.test.

(** The operation the performance tests measure, [() => makeRequest(...)]:
    [makeRequest] run in the world, where the transport's call depends on
    the world and changes it (time passes). *)
Definition makeRequest_task
    (axios : object → World → completion rejection Response.t * World)
    (endpoint : string) (options : option object) : task World Response.t :=
  λ w, let outcome := axios (requestConfig endpoint options) w in
       (makeRequest (λ _, outcome.1) endpoint options, outcome.2).
End Runner.

(** * Properties *)

(** ** Loops *)

Example Number_toString_decimal :
  Number_toString <$> [0; 7; 10; 123] = ["0"; "7"; "10"; "123"].
Proof. reflexivity. Qed.

Lemma bind_Normal {E A B} (a : A) (k : A → completion E B) :
  (Normal a ≫= k) = k a.
Proof. reflexivity. Qed.

Lemma filter_nil_Forall {A} (P : A → Prop) `{∀ x, Decision (P x)}
    (l : list A) :
  filter P l = [] ↔ Forall (λ x, ¬ P x) l.
Proof.
  induction l as [|x l IH].
  - split; [constructor | done].
  - destruct (decide (P x)) as [HP|HP].
    + rewrite filter_cons_True by done. split; [done|].
      intros Hall. by apply Forall_cons_1 in Hall as [? _].
    + rewrite filter_cons_False by done. rewrite IH, Forall_cons. tauto.
Qed.

Lemma filter_ext_elem {A} (P Q : A → Prop) `{∀ x, Decision (P x)}
    `{∀ x, Decision (Q x)} (l : list A) :
  (∀ x, x ∈ l → P x ↔ Q x) → filter P l = filter Q l.
Proof.
  induction l as [|x l IH]; intros HPQ; [done|].
  assert (filter P l = filter Q l) as Hrest
    by (apply IH; intros y Hy; apply HPQ; by right).
  destruct (decide (P x)) as [HP|HP].
  - rewrite !filter_cons_True, Hrest; [done| |done]. apply HPQ; [left|done].
  - rewrite !filter_cons_False, Hrest; [done| |done].
    intros HQ. apply HP, HPQ; [left|done].
Qed.

(** A loop whose callback only pushes one entry per element. *)
Lemma forEach_from_push {E A B} (f : A → B) (array : list A) :
  ∀ (index : nat) (acc : list B),
    forEach_from (E:=E) (λ x _ acc, Normal (push acc (f x))) index array acc
    = Normal (acc ++ (f <$> array)).
Proof.
  induction array as [|x array IH]; intros index acc; simpl.
  - by rewrite app_nil_r.
  - rewrite IH. unfold push. by rewrite <- app_assoc.
Qed.

Lemma forEach_push {E A B} (f : A → B) (array : list A) (acc : list B) :
  forEach (E:=E) (λ x _ acc, Normal (push acc (f x))) array acc
  = Normal (acc ++ (f <$> array)).
Proof. apply forEach_from_push. Qed.

(** A loop whose callback pushes an entry for the elements a test rejects. *)
Lemma forEach_from_push_unless {A B} (test : A → bool) (f : A → B)
    (probe : A → completion exn bool) (array : list A) :
  (∀ x, x ∈ array → probe x = Normal (test x)) →
  ∀ (index : nat) (acc : list B),
    forEach_from (λ x _ acc,
        has ← probe x;
        if negb has then Normal (push acc (f x)) else Normal acc)
      index array acc
    = Normal (acc ++ (f <$> filter (λ x, test x = false) array)).
Proof.
  induction array as [|x array IH]; intros Hprobe index acc; simpl.
  - by rewrite app_nil_r.
  - rewrite (Hprobe x) by left.
    assert (∀ y, y ∈ array → probe y = Normal (test y)) as Hrest
      by (intros y Hy; apply Hprobe; by right).
    destruct (test x) eqn:Htest; simpl; rewrite (IH Hrest).
    + rewrite filter_cons_False; [done|]. by rewrite Htest.
    + rewrite filter_cons_True by done.
      unfold push. by rewrite <- app_assoc.
Qed.

(** The first element on which the callback throws ends the loop with that
    exception. *)
Lemma forEach_from_throw {E A V} (callback : A → nat → V → completion E V)
    (item : A) (rest : list A) (index : nat) (s : V) (e : E) :
  callback item index s = Throw e →
  forEach_from callback index (item :: rest) s = Throw e.
Proof. intros H. simpl. by rewrite H. Qed.

(** ** Schema validator *)

Lemma hasOwnProperty_plain (props : object) (field : string) :
  plain props →
  hasOwnProperty (VObj props) field
  = Normal (bool_decide (is_Some (props !! field))).
Proof. unfold plain. intros H. simpl. by rewrite H. Qed.

Lemma hasOwnProperty_shadowed (props : object) (field : string) :
  ¬ plain props →
  hasOwnProperty (VObj props) field
  = Throw (TypeError "response.hasOwnProperty is not a function").
Proof.
  unfold plain. intros H. simpl.
  destruct (props !! "hasOwnProperty"); [done | by destruct H].
Qed.

(** On a plain record the validator returns, with one message per missing
    required key, in declaration order. *)
Lemma validateSchema_plain (props : object) (schema : Schema.t) :
  plain props →
  validateSchema (VObj props) schema
  = let errors :=
      (λ field, "Missing required field: " +:+ field)
        <$> filter (λ field, props !! field = None) (Schema.required schema) in
    Normal {| ValidationResult.isValid := (length errors =? 0)%nat;
              ValidationResult.errors := errors |}.
Proof.
  intros Hplain. unfold validateSchema, forEach.
  rewrite (forEach_from_push_unless
             (λ field, bool_decide (is_Some (props !! field)))).
  2:{ intros field _. by apply hasOwnProperty_plain. }
  rewrite bind_Normal. simpl.
  assert (filter (λ field, bool_decide (is_Some (props !! field)) = false)
            (Schema.required schema)
          = filter (λ field, props !! field = None) (Schema.required schema))
    as ->; [|done].
  apply list_filter_iff. intros field.
  rewrite bool_decide_eq_false, <- eq_None_not_Some. done.
Qed.

(** X10.  On a plain record the validator returns, and the verdict is
    [true] exactly when every required key is present. *)
Lemma validateSchema_plain_isValid (props : object) (schema : Schema.t) :
  plain props →
  ∃ result, validateSchema (VObj props) schema = Normal result
    ∧ (ValidationResult.isValid result = true
       ↔ ∀ field, field ∈ Schema.required schema → is_Some (props !! field)).
Proof.
  intros Hplain. rewrite (validateSchema_plain _ _ Hplain).
  eexists. split; [reflexivity|]. simpl.
  rewrite Nat.eqb_eq, length_fmap, length_zero_iff_nil.
  rewrite filter_nil_Forall, Forall_forall.
  split; intros H field Hin; specialize (H field Hin).
  - by apply not_eq_None_Some.
  - by apply not_eq_None_Some.
Qed.

(** X9.  Keys the schema does not require are irrelevant: adding one to a
    plain record changes nothing in the result. *)
Lemma validateSchema_extra_key (props : object) (schema : Schema.t)
    (key : string) (v : value) :
  plain props →
  key ≠ "hasOwnProperty" →
  key ∉ Schema.required schema →
  validateSchema (VObj (<[key:=v]> props)) schema
  = validateSchema (VObj props) schema.
Proof.
  intros Hplain Hkey Hextra.
  rewrite !validateSchema_plain; [|done|].
  2:{ unfold plain. by rewrite lookup_insert_ne. }
  cbn zeta.
  assert (filter (λ field, <[key:=v]> props !! field = None)
            (Schema.required schema)
          = filter (λ field, props !! field = None) (Schema.required schema))
    as ->; [|done].
  apply filter_ext_elem. intros field Hin.
  rewrite lookup_insert_ne; [done|]. by intros ->.
Qed.

(** A record that shadows [hasOwnProperty] makes the validator throw as soon
    as the schema requires anything. *)
Lemma validateSchema_shadowed (props : object) (schema : Schema.t) :
  ¬ plain props →
  Schema.required schema ≠ [] →
  validateSchema (VObj props) schema
  = Throw (TypeError "response.hasOwnProperty is not a function").
Proof.
  intros Hshadow Hreq. unfold validateSchema, forEach.
  destruct (Schema.required schema) as [|field rest]; [done|].
  erewrite forEach_from_throw; [done|].
  by rewrite (hasOwnProperty_shadowed _ _ Hshadow).
Qed.

(** The outer loop of [validateArraySchema], started at any index with any
    errors already collected, once every element's validation returns. *)
Lemma forEach_from_items (schema : Schema.t) (items : list value)
    (validations : list ValidationResult.t) :
  Forall2 (λ item validation, validateSchema item schema = Normal validation)
    items validations →
  ∀ (index : nat) (acc : list string),
    forEach_from (λ item index errors,
        validation ← validateSchema item schema;
        forEach (λ error _ errors,
            Normal (push errors
              ("Item " +:+ Number_toString index +:+ ": " +:+ error)))
          (ValidationResult.errors validation) errors)
      index items acc
    = Normal (acc ++ concat (imap (λ i validation,
        itemErrors (index + i) validation) validations)).
Proof.
  induction 1 as [|item validation items validations Hitem _ IH];
    intros index acc.
  - simpl. by rewrite app_nil_r.
  - cbn [forEach_from]. rewrite Hitem. cbn [mbind completion_bind].
    rewrite forEach_push. cbn [mbind completion_bind].
    rewrite IH, imap_cons. cbn [concat]. rewrite Nat.add_0_r, <- app_assoc.
    rewrite (imap_ext (λ i validation, itemErrors (S index + i) validation)
               ((λ i validation, itemErrors (index + i) validation) ∘ S));
      [done|].
    intros i v _. simpl. by rewrite Nat.add_succ_r.
Qed.

(** An element whose validation throws makes the array validation throw,
    whatever the elements before it reported. *)
Lemma validateArraySchema_throw (schema : Schema.t) (before after : list value)
    (validations : list ValidationResult.t) (item : value) (e : exn) :
  Forall2 (λ item validation, validateSchema item schema = Normal validation)
    before validations →
  validateSchema item schema = Throw e →
  validateArraySchema (VArr (before ++ item :: after)) schema = Throw e.
Proof.
  intros Hbefore Hitem. unfold validateArraySchema, forEach.
  cbn [Array_isArray negb elements].
  enough (∀ index acc,
    forEach_from (λ item index errors,
        validation ← validateSchema item schema;
        forEach (λ error _ errors,
            Normal (push errors
              ("Item " +:+ Number_toString index +:+ ": " +:+ error)))
          (ValidationResult.errors validation) errors)
      index (before ++ item :: after) acc = Throw e) as -> by done.
  induction Hbefore as [|b v before validations Hb _ IH]; intros index acc.
  - simpl. by rewrite Hitem.
  - cbn [app forEach_from]. rewrite Hb. cbn [mbind completion_bind].
    rewrite forEach_push. apply IH.
Qed.

(** X8.  An array of plain records always validates: every element's
    validation returns, and the array's errors are the elements' errors,
    prefixed and concatenated. *)
Lemma validateArraySchema_plain_records (records : list object)
    (schema : Schema.t) :
  Forall plain records →
  ∃ validations,
    Forall2 (λ props validation,
        validateSchema (VObj props) schema = Normal validation)
      records validations
    ∧ validateArraySchema (VArr (VObj <$> records)) schema
      = let errors := concat (imap itemErrors validations) in
        Normal {| ValidationResult.isValid := (length errors =? 0)%nat;
                  ValidationResult.errors := errors |}.
Proof.
  intros Hplain.
  assert (∃ validations,
    Forall2 (λ props validation,
        validateSchema (VObj props) schema = Normal validation)
      records validations) as [validations Hvalidations].
  { induction Hplain as [|props records Hprops _ [validations IH]].
    - exists []. constructor.
    - eexists (_ :: validations). constructor; [|done].
      by apply validateSchema_plain. }
  exists validations. split; [done|].
  unfold validateArraySchema, forEach. cbn [Array_isArray negb elements].
  rewrite (forEach_from_items schema _ validations)
    by by apply Forall2_fmap_l.
  done.
Qed.

(** Spec, concrete scenario 1. *)
Example validateSchema_scenario_1 :
  validateSchema (VObj {[ "id" := VStr "x"; "name" := VStr "y" ]})
    {| Schema.required := ["id"; "name"; "symbol"]; Schema.optional := [] |}
  = Normal {| ValidationResult.isValid := false;
              ValidationResult.errors := ["Missing required field: symbol"] |}.
Proof. reflexivity. Qed.

(** Spec, concrete scenario 2. *)
Example validateArraySchema_scenario_2 :
  validateArraySchema (VArr [VObj {[ "id" := VStr "a" ]}])
    {| Schema.required := ["id"; "symbol"]; Schema.optional := [] |}
  = Normal {| ValidationResult.isValid := false;
              ValidationResult.errors :=
                ["Item 0: Missing required field: symbol"] |}.
Proof. reflexivity. Qed.

(** C1.  The record [{"id": "x", "hasOwnProperty": 1}] has every key the
    schema [{required: ["id"]}] requires, and yet [validateSchema] does not
    report [isValid = true] with no errors on it: the record's own
    [hasOwnProperty] entry shadows the builtin the validator calls, and the
    call throws a [TypeError] instead of returning a validation result. *)
Theorem validateSchema_shadowing_record_throws :
  let R : object := {[ "id" := VStr "x"; "hasOwnProperty" := VNum 1 ]} in
  let S := {| Schema.required := ["id"]; Schema.optional := [] |} in
  Forall (λ field, is_Some (R !! field)) (Schema.required S)
  ∧ validateSchema (VObj R) S
    = Throw (TypeError "response.hasOwnProperty is not a function").
Proof.
  intros R S. split; [|reflexivity].
  repeat constructor. by eexists.
Qed.

(** C5.  For a sequence of records [r0, ..., rn] whose validations are
    [v0, ..., vn], [validateArraySchema] returns, and its errors are the
    concatenation, in index order, of ["Item i: " + msg] for each message of
    [vi]: the index-prefixed union of the per-element validations. *)
Theorem validateArraySchema_errors_concat (items : list value)
    (schema : Schema.t) (validations : list ValidationResult.t) :
  Forall2 (λ item validation, validateSchema item schema = Normal validation)
    items validations →
  ∃ result,
    validateArraySchema (VArr items) schema = Normal result
    ∧ ValidationResult.errors result
      = concat (imap (λ i validation,
          (λ msg, "Item " +:+ Number_toString i +:+ ": " +:+ msg)
            <$> ValidationResult.errors validation) validations).
Proof.
  intros Hitems. unfold validateArraySchema, forEach. simpl.
  rewrite (forEach_from_items _ _ _ Hitems). simpl.
  eexists. split; reflexivity.
Qed.

Lemma validateArraySchema_errors_concat_witness :
  let items := [VObj {[ "id" := VStr "a" ]};
                VObj {[ "id" := VStr "b"; "symbol" := VStr "TFUEL" ]};
                VObj ∅] in
  let schema := {| Schema.required := ["id"; "symbol"];
                   Schema.optional := [] |} in
  ∃ result,
    validateArraySchema (VArr items) schema = Normal result
    ∧ ValidationResult.errors result
      = ["Item 0: Missing required field: symbol";
         "Item 2: Missing required field: id";
         "Item 2: Missing required field: symbol"].
Proof.
  intros items schema.
  apply (validateArraySchema_errors_concat items schema
    [ {| ValidationResult.isValid := false;
         ValidationResult.errors := ["Missing required field: symbol"] |};
      {| ValidationResult.isValid := true; ValidationResult.errors := [] |};
      {| ValidationResult.isValid := false;
         ValidationResult.errors := ["Missing required field: id";
                                     "Missing required field: symbol"] |} ]).
  repeat constructor.
Defined.

(** C6.  On an input that is not an array, [validateArraySchema] returns
    [isValid = false] with the single error ["Response is not an array"],
    whatever the schema: any two schemas give the same result. *)
Theorem validateArraySchema_not_array (x : value) (schema : Schema.t) :
  Array_isArray x = false →
  validateArraySchema x schema
  = Normal {| ValidationResult.isValid := false;
              ValidationResult.errors := ["Response is not an array"] |}
  ∧ ∀ schema', validateArraySchema x schema' = validateArraySchema x schema.
Proof.
  intros Hx. unfold validateArraySchema. rewrite Hx. done.
Qed.

Lemma validateArraySchema_not_array_witness :
  Array_isArray (VStr "Server Error") = false
  ∧ validateArraySchema (VStr "Server Error")
      {| Schema.required := ["id"]; Schema.optional := [] |}
    = Normal {| ValidationResult.isValid := false;
                ValidationResult.errors := ["Response is not an array"] |}.
Proof.
  split; [reflexivity|].
  apply (validateArraySchema_not_array (VStr "Server Error")). reflexivity.
Defined.

(** C8.  Every validation result that [validateSchema] or
    [validateArraySchema] returns, on any input, array or not, has
    [isValid] equal to [errors.length == 0]. *)
Theorem ValidationResult_invariant (x : value) (schema : Schema.t)
    (result : ValidationResult.t) :
  validateSchema x schema = Normal result
  ∨ validateArraySchema x schema = Normal result →
  ValidationResult.isValid result
  = (length (ValidationResult.errors result) =? 0)%nat.
Proof.
  unfold validateSchema, validateArraySchema. intros [H|H].
  - destruct (forEach _ _ _); simpl in H; [|done]. by injection H as <-.
  - destruct (Array_isArray x); simpl in H.
    + destruct (forEach _ _ _); simpl in H; [|done]. by injection H as <-.
    + by injection H as <-.
Qed.

Lemma ValidationResult_invariant_witness :
  let x := VArr [VObj {[ "id" := VStr "a" ]}] in
  let schema := {| Schema.required := ["id"; "symbol"];
                   Schema.optional := [] |} in
  let result :=
    {| ValidationResult.isValid := false;
       ValidationResult.errors :=
         ["Item 0: Missing required field: symbol"] |} in
  validateArraySchema x schema = Normal result
  ∧ ValidationResult.isValid result
    = (length (ValidationResult.errors result) =? 0)%nat.
Proof.
  intros x schema result. split; [reflexivity|].
  apply (ValidationResult_invariant x schema result). right. reflexivity.
Defined.

(** C10.  The empty array is valid against every schema:
    [validateArraySchema([], S)] is [{isValid: true, errors: []}]. *)
Theorem validateArraySchema_empty (schema : Schema.t) :
  validateArraySchema (VArr []) schema
  = Normal {| ValidationResult.isValid := true;
              ValidationResult.errors := [] |}.
Proof. reflexivity. Qed.

(** ** Request executor *)

(** The paths through [makeRequest]: the transport resolved, or it threw
    an error that carries a response, only a request, or neither, or it
    threw [null] or [undefined]. *)
Ltac case_outcome axios endpoint options :=
  let response := fresh "response" in
  let error := fresh "error" in
  destruct (axios (requestConfig endpoint options)) as [response|[error| |]];
  simpl;
  [| destruct (AxiosError.response error) as [response|];
     [| destruct (AxiosError.request error) ] | | ];
  simpl.

(** The transport is consulted on [requestConfig endpoint options] and on
    nothing else. *)
Lemma makeRequest_transport_argument (axios axios' : transport)
    (endpoint : string) (options : option object) :
  axios (requestConfig endpoint options)
  = axios' (requestConfig endpoint options) →
  makeRequest axios endpoint options = makeRequest axios' endpoint options.
Proof. unfold makeRequest. by intros ->. Qed.

Lemma lookup_spread (base extra : object) (key : string) :
  spread base extra !! key
  = match extra !! key with
    | Some v => Some v
    | None => base !! key
    end.
Proof.
  unfold spread. rewrite lookup_union.
  destruct (extra !! key), (base !! key); done.
Qed.

(** Each option of the configuration is the caller's when the caller
    supplies it, else the default one, else the URL entry. *)
Lemma requestConfig_lookup (endpoint : string) (options : option object)
    (key : string) :
  requestConfig endpoint options !! key
  = match default ∅ options !! key with
    | Some v => Some v
    | None =>
        match defaultOptions !! key with
        | Some v => Some v
        | None =>
            ({[ "url" := VStr (config.baseURL +:+ endpoint) ]} : object)
              !! key
        end
    end.
Proof. unfold requestConfig. cbn zeta. by rewrite !lookup_spread. Qed.

(** X14.  The caller's options never lose an entry to the defaults: every
    option the caller supplies ([method], [data], ...) reaches the transport
    unchanged. *)
Lemma requestConfig_caller (endpoint : string) (options : object)
    (key : string) (v : value) :
  options !! key = Some v →
  requestConfig endpoint (Some options) !! key = Some v.
Proof. intros H. rewrite requestConfig_lookup. simpl. by rewrite H. Qed.

(** A caller that sets headers without a content type: the request goes out
    with the caller's headers only, where the merge of the defaults with the
    caller's headers would keep [Content-Type: application/json]. *)
Lemma requestConfig_headers_not_merged :
  let options : option object :=
    Some {[ "headers" := VObj {[ "Accept" := VStr "text/html" ]} ]} in
  ¬ headersMerged "/api/tokens" options
  ∧ headersOf (default ∅ options) !! "Content-Type" = None
  ∧ mergedHeaders options !! "Content-Type" = Some (VStr "application/json")
  ∧ headersOf (requestConfig "/api/tokens" options) !! "Content-Type" = None.
Proof.
  intros options. split; [|by vm_compute].
  unfold headersMerged. intros Heq.
  apply (f_equal (λ h : object, h !! "Content-Type")) in Heq.
  vm_compute in Heq. discriminate Heq.
Qed.

(** C2, as amended.  The transport is consulted on one configuration, the
    URL overlaid with the default options and then with the caller's
    options, one top-level option at a time: its [headers] option is the
    caller's when the caller supplies one, taken whole, and otherwise the
    default [{Content-Type: application/json}]; its [timeout] option is the
    caller's when supplied and otherwise the default request timeout. *)
Theorem requestConfig_option_override (endpoint : string)
    (options : option object) :
  (∀ axios : transport,
     makeRequest axios endpoint options
     = makeRequest (λ _, axios (requestConfig endpoint options))
         endpoint options)
  ∧ requestConfig endpoint options !! "headers"
    = Some (default (VObj {[ "Content-Type" := VStr "application/json" ]})
              (default ∅ options !! "headers"))
  ∧ requestConfig endpoint options !! "timeout"
    = Some (default (VNum config.timeouts.request)
              (default ∅ options !! "timeout")).
Proof.
  split; [done|]. rewrite !requestConfig_lookup. split.
  - destruct (default ∅ options !! "headers"); done.
  - destruct (default ∅ options !! "timeout"); done.
Qed.

(** Without a [headers] option the request carries exactly the default
    header; with [{timeout: 1}] only the timeout changes. *)
Example requestConfig_defaults :
  headersOf (requestConfig "/api/tokens" None)
  = {[ "Content-Type" := VStr "application/json" ]}
  ∧ requestConfig "/api/tokens" (Some {[ "timeout" := VNum 1 ]})
    = {[ "url" := VStr "http://localhost:5006/api/tokens";
         "timeout" := VNum 1;
         "headers" := VObj {[ "Content-Type" := VStr "application/json" ]} ]}.
Proof. split; reflexivity. Qed.

(** C3.  A transport that rejects with [null], as an option that is a
    function can make it do, makes [makeRequest] itself throw: the catch
    block starts by reading [error.message], which throws a [TypeError] on
    [null], and no response record is returned to the caller. *)
Theorem makeRequest_null_rejection_throws :
  makeRequest (λ _, Throw RejectNull) "/api/tokens" None
  = Throw (TypeError "Cannot read properties of null (reading 'message')").
Proof. reflexivity. Qed.

(** A 500 delivered through the transport's error path comes back as data. *)
Example makeRequest_server_error :
  let response := {| Response.status := 500;
                     Response.data := VStr "Server Error";
                     Response.headers := {[ "content-type" := "text/html" ]} |} in
  makeRequest
    (λ _, Throw (RejectError
            {| AxiosError.message := "Request failed with status code 500";
               AxiosError.response := Some response;
               AxiosError.request := Some client_request |}))
    "/api/tokens" None
  = Normal response.
Proof. reflexivity. Qed.

(** C4.  When the transport throws without having received a response, the
    result is [{status: 0, data: {error: ...}, headers: {}}]: the error text
    is ["No response received"] when the request had been dispatched, and
    the message of the failure when it had not. *)
Theorem makeRequest_no_response (axios : transport) (endpoint : string)
    (options : option object) (error : AxiosError.t) :
  axios (requestConfig endpoint options) = Throw (RejectError error) →
  AxiosError.response error = None →
  makeRequest axios endpoint options
  = Normal {| Response.status := 0;
              Response.data :=
                VObj {[ "error" :=
                  VStr (match AxiosError.request error with
                        | Some _ => "No response received"
                        | None => AxiosError.message error
                        end) ]};
              Response.headers := ∅ |}.
Proof.
  intros Hthrow Hnone. unfold makeRequest. rewrite Hthrow. simpl.
  rewrite Hnone. by destruct (AxiosError.request error).
Qed.

Lemma makeRequest_no_response_witness :
  makeRequest
    (λ _, Throw (RejectError
            {| AxiosError.message := "timeout of 1ms exceeded";
               AxiosError.response := None;
               AxiosError.request := Some client_request |}))
    "/api/tokens" (Some {[ "timeout" := VNum 1 ]})
  = Normal {| Response.status := 0;
              Response.data :=
                VObj {[ "error" := VStr "No response received" ]};
              Response.headers := ∅ |}.
Proof.
  apply (makeRequest_no_response
           (λ _, Throw (RejectError
                   {| AxiosError.message := "timeout of 1ms exceeded";
                      AxiosError.response := None;
                      AxiosError.request := Some client_request |}))
           "/api/tokens" (Some {[ "timeout" := VNum 1 ]})
           {| AxiosError.message := "timeout of 1ms exceeded";
              AxiosError.response := None;
              AxiosError.request := Some client_request |});
    reflexivity.
Defined.

(** C9.  Real HTTP status codes being at least 100: a response returned with
    status 0 has empty headers and a data object with the key ["error"], and
    the transport had received no response; and whenever the transport did
    receive a response, also through its error path, the response returned
    is that one, with the status the server assigned. *)
Theorem makeRequest_status_zero (axios : transport) (endpoint : string)
    (options : option object) (result : Response.t) :
  (∀ response,
     received (axios (requestConfig endpoint options)) = Some response →
     (100 ≤ Response.status response)%Z) →
  makeRequest axios endpoint options = Normal result →
  (Response.status result = 0%Z →
     Response.headers result = ∅
     ∧ (∃ props msg, Response.data result = VObj props
                     ∧ props !! "error" = Some (VStr msg))
     ∧ received (axios (requestConfig endpoint options)) = None)
  ∧ (∀ response,
       received (axios (requestConfig endpoint options)) = Some response →
       result = response
       ∧ Response.status result = Response.status response).
Proof.
  unfold makeRequest, received.
  case_outcome axios endpoint options; intros Hhttp; [| | | |done|done];
    intros [= <-]; simpl.
  - split; [|by intros ? [= ->]].
    intros Hzero. specialize (Hhttp _ eq_refl). lia.
  - split; [|by intros ? [= ->]].
    intros Hzero. specialize (Hhttp _ eq_refl). lia.
  - split; [|done]. intros _. split; [done|]. split; [|done].
    eexists _, _. split; [done|]. apply lookup_singleton_eq.
  - split; [|done]. intros _. split; [done|]. split; [|done].
    eexists _, _. split; [done|]. apply lookup_singleton_eq.
Qed.

(** A 404 received through the error path keeps its status; a timeout comes
    back with status 0, no headers and an ["error"] entry. *)
Lemma makeRequest_status_zero_witness :
  let response := {| Response.status := 404;
                     Response.data := VObj {[ "error" := VStr "Not Found" ]};
                     Response.headers :=
                       {[ "content-type" := "application/json" ]} |} in
  let not_found : transport :=
    λ _, Throw (RejectError
           {| AxiosError.message := "Request failed with status code 404";
              AxiosError.response := Some response;
              AxiosError.request := Some client_request |}) in
  let timed_out : transport :=
    λ _, Throw (RejectError
           {| AxiosError.message := "timeout of 1ms exceeded";
              AxiosError.response := None;
              AxiosError.request := Some client_request |}) in
  (∃ result,
     makeRequest not_found "/api/token-pairs/0x0" None = Normal result
     ∧ Response.status result = 404%Z)
  ∧ (∃ result,
       makeRequest timed_out "/api/tokens" (Some {[ "timeout" := VNum 1 ]})
       = Normal result
       ∧ Response.status result = 0%Z
       ∧ Response.headers result = ∅
       ∧ ∃ props msg, Response.data result = VObj props
                      ∧ props !! "error" = Some (VStr msg)).
Proof.
  intros response not_found timed_out. split.
  - exists response. split; [reflexivity|].
    destruct (makeRequest_status_zero not_found "/api/token-pairs/0x0" None
                response) as [_ Hreceived].
    + intros r [= <-]. simpl. lia.
    + reflexivity.
    + destruct (Hreceived response eq_refl) as [_ Hstatus]. exact Hstatus.
  - eexists. split; [reflexivity|]. split; [reflexivity|].
    edestruct (makeRequest_status_zero timed_out "/api/tokens"
                 (Some {[ "timeout" := VNum 1 ]})) as [Hzero _].
    + intros r Hr. discriminate Hr.
    + reflexivity.
    + destruct (Hzero eq_refl) as (Hheaders & Hdata & _). by split.
Defined.

(** ** Performance timer *)

(** C7, as amended.  When the operation resolves, [measurePerformance]
    returns a result whose duration is an integer, the wall clock read after
    the operation minus the one read before it, nonnegative exactly when the
    later reading is not behind the earlier one; whose [isWithinLimit] is
    [duration <= maxTime], [maxTime] being 1000 when left out; and whose
    response is the value the operation resolved to.  The world is left as
    the operation left it. *)
Theorem measurePerformance_result {World A : Type} (clock : World → Z)
    (requestFn : task World A) (maxTime : option Z) (w w' : World)
    (resolved : A) :
  requestFn w = (Normal resolved, w') →
  ∃ result,
    measurePerformance clock requestFn maxTime w = (Normal result, w')
    ∧ PerformanceResult.duration result = (clock w' - clock w)%Z
    ∧ ((0 ≤ PerformanceResult.duration result)%Z ↔ (clock w ≤ clock w')%Z)
    ∧ PerformanceResult.isWithinLimit result
      = (PerformanceResult.duration result <=? default 1000 maxTime)%Z
    ∧ PerformanceResult.response result = resolved.
Proof.
  intros Hfn.
  unfold measurePerformance, mbind, mret, task_bind, task_ret, Date_now.
  rewrite Hfn.
  eexists. split; [reflexivity|]. simpl. repeat split; lia.
Qed.

(** Spec, concrete scenario 3: an operation that takes 1500 ms against a
    limit of 1000 ms. *)
Lemma measurePerformance_result_witness :
  let requestFn : task Z value := λ w, (Normal (VStr "ok"), (w + 1500)%Z) in
  ∃ result,
    measurePerformance id requestFn (Some 1000%Z) 1700000000000%Z
    = (Normal result, 1700000001500%Z)
    ∧ PerformanceResult.duration result = 1500%Z
    ∧ (0 ≤ PerformanceResult.duration result)%Z
    ∧ PerformanceResult.isWithinLimit result = false
    ∧ PerformanceResult.response result = VStr "ok".
Proof.
  intros requestFn.
  destruct (measurePerformance_result id requestFn (Some 1000%Z)
              1700000000000%Z 1700000001500%Z (VStr "ok"))
    as (result & Hrun & Hduration & Hpos & Hlimit & Hresponse).
  - reflexivity.
  - exists result. rewrite Hlimit, Hduration. done.
Defined.

(** The duration is not always nonnegative: it is the difference of two
    readings of the wall clock, and a clock set back by 100 ms while the
    operation runs gives a duration of -100 (and a result within the
    limit). *)
Lemma measurePerformance_clock_set_back :
  let requestFn : task Z value := λ w, (Normal (VStr "ok"), (w - 100)%Z) in
  ∃ result,
    measurePerformance id requestFn None 5000%Z = (Normal result, 4900%Z)
    ∧ PerformanceResult.duration result = (-100)%Z
    ∧ ¬ (0 ≤ PerformanceResult.duration result)%Z
    ∧ PerformanceResult.isWithinLimit result = true
    ∧ PerformanceResult.response result = VStr "ok".
Proof.
  intros requestFn. eexists. split; [reflexivity|]. simpl.
  repeat split; lia.
Qed.

(** X15.  An operation that throws makes the timer throw the same error:
    no result is built, and the world is left as the operation left it. *)
Lemma measurePerformance_throw {World A : Type} (clock : World → Z)
    (requestFn : task World A) (maxTime : option Z) (w w' : World) (e : exn) :
  requestFn w = (Throw e, w') →
  measurePerformance clock requestFn maxTime w = (Throw e, w').
Proof.
  intros Hfn. unfold measurePerformance, mbind, task_bind, Date_now.
  by rewrite Hfn.
Qed.

(** * Further properties *)

(** ** Schema validator: which values it accepts *)

Lemma uncallable_or_not (x : value) : uncallable x ∨ ¬ uncallable x.
Proof.
  destruct x as [| | | | | |props]; simpl; try tauto.
  unfold plain. destruct (props !! "hasOwnProperty"); [left|right]; naive_solver.
Qed.

(** Off the uncallable values the probe is a plain test on the field. *)
Lemma hasOwnProperty_callable (x : value) :
  ¬ uncallable x →
  ∃ test : string → bool,
    ∀ field, hasOwnProperty x field = Normal (test field).
Proof.
  destruct x as [| | | | | |props]; simpl; intros Hx; try tauto.
  - by exists (λ _, false).
  - by exists (λ _, false).
  - by eexists (λ field, indexed_own _ field).
  - by eexists (λ field, indexed_own _ field).
  - exists (λ field, bool_decide (is_Some (props !! field))). intros field.
    destruct (props !! "hasOwnProperty") eqn:Hown; [|done].
    destruct Hx. unfold plain. by rewrite Hown.
Qed.

(** On them it throws, whatever the field. *)
Lemma hasOwnProperty_uncallable (x : value) :
  uncallable x →
  ∃ e, ∀ field, hasOwnProperty x field = Throw e.
Proof.
  destruct x as [| | | | | |props]; simpl; intros Hx; try tauto.
  - by eexists.
  - by eexists.
  - eexists. intros field. unfold plain in Hx.
    destruct (props !! "hasOwnProperty"); [done | by destruct Hx].
Qed.

Lemma validateSchema_callable (x : value) (schema : Schema.t) :
  ¬ uncallable x →
  ∃ test : string → bool,
    (∀ field, hasOwnProperty x field = Normal (test field))
    ∧ validateSchema x schema
      = let errors :=
          (λ field, "Missing required field: " +:+ field)
            <$> filter (λ field, test field = false) (Schema.required schema) in
        Normal {| ValidationResult.isValid := (length errors =? 0)%nat;
                  ValidationResult.errors := errors |}.
Proof.
  intros Hx. destruct (hasOwnProperty_callable x Hx) as [test Htest].
  exists test. split; [done|]. unfold validateSchema, forEach.
  by rewrite (forEach_from_push_unless test) by (intros; apply Htest).
Qed.

Lemma validateSchema_uncallable (x : value) (schema : Schema.t) :
  uncallable x →
  Schema.required schema ≠ [] →
  ∃ e, validateSchema x schema = Throw e.
Proof.
  intros Hx Hreq. destruct (hasOwnProperty_uncallable x Hx) as [e He].
  exists e. unfold validateSchema, forEach.
  destruct (Schema.required schema) as [|field rest]; [done|].
  erewrite forEach_from_throw; [done|]. by rewrite He.
Qed.

Lemma validateSchema_isValid_length (x : value) (schema : Schema.t)
    (result : ValidationResult.t) :
  validateSchema x schema = Normal result →
  ValidationResult.isValid result
  = (length (ValidationResult.errors result) =? 0)%nat.
Proof.
  unfold validateSchema. destruct (forEach _ _ _); simpl; [|done].
  by intros [= <-].
Qed.

Lemma filter_sublist_impl {A} (P Q : A → Prop) `{∀ x, Decision (P x)}
    `{∀ x, Decision (Q x)} (l : list A) :
  (∀ x, x ∈ l → P x → Q x) → filter P l `sublist_of` filter Q l.
Proof.
  induction l as [|x l IH]; intros HPQ; [done|].
  assert (filter P l `sublist_of` filter Q l) as Hrest
    by (apply IH; intros y Hy; apply HPQ; by right).
  destruct (decide (P x)) as [HP|HP].
  - rewrite (filter_cons_True P), (filter_cons_True Q); [|apply HPQ; [left|]|];
      try done.
    by constructor.
  - rewrite (filter_cons_False P) by done.
    destruct (decide (Q x)).
    + rewrite filter_cons_True by done. by constructor.
    + by rewrite filter_cons_False.
Qed.

(** X1.  [validateSchema] returns a result, rather than throwing, exactly
    when the schema requires nothing or the value is neither [null] nor
    [undefined] nor a record with an own [hasOwnProperty] entry. *)
Theorem validateSchema_returns_iff (x : value) (schema : Schema.t) :
  (∃ result, validateSchema x schema = Normal result)
  ↔ Schema.required schema = [] ∨ ¬ uncallable x.
Proof.
  split.
  - intros [result Hresult].
    destruct (Schema.required schema) as [|field rest] eqn:Hreq; [by left|].
    right. intros Hx.
    destruct (validateSchema_uncallable x schema Hx) as [e He].
    + by rewrite Hreq.
    + by rewrite He in Hresult.
  - intros [Hreq|Hx].
    + unfold validateSchema, forEach. rewrite Hreq. by eexists.
    + destruct (validateSchema_callable x schema Hx) as (test & _ & ->).
      by eexists.
Qed.

(** X2.  Whatever the value validated, the errors returned are messages
    for required fields, each field at most once per declaration and in
    declaration order: a sublist of the messages of all required fields, so
    never more errors than required fields. *)
Theorem validateSchema_errors_sublist (x : value) (schema : Schema.t)
    (result : ValidationResult.t) :
  validateSchema x schema = Normal result →
  ValidationResult.errors result
    `sublist_of` ((λ field, "Missing required field: " +:+ field)
                    <$> Schema.required schema)
  ∧ length (ValidationResult.errors result) ≤ length (Schema.required schema).
Proof.
  intros Hresult.
  assert (ValidationResult.errors result
    `sublist_of` ((λ field, "Missing required field: " +:+ field)
                    <$> Schema.required schema)) as Hsub.
  { destruct (uncallable_or_not x) as [Hx|Hx].
    - destruct (Schema.required schema) as [|field rest] eqn:Hreq.
      + unfold validateSchema, forEach in Hresult. rewrite Hreq in Hresult.
        by injection Hresult as <-.
      + destruct (validateSchema_uncallable x schema Hx) as [e He];
          [by rewrite Hreq|]. by rewrite He in Hresult.
    - destruct (validateSchema_callable x schema Hx) as (test & _ & Heq).
      rewrite Heq in Hresult. injection Hresult as <-. simpl.
      apply fmap_sublist, sublist_filter. }
  split; [done|]. apply sublist_length in Hsub. by rewrite length_fmap in Hsub.
Qed.

Lemma validateSchema_errors_sublist_witness :
  let x := VObj {[ "id" := VStr "x"; "name" := VStr "y" ]} in
  let schema := {| Schema.required := ["id"; "name"; "symbol"];
                   Schema.optional := [] |} in
  let result := {| ValidationResult.isValid := false;
                   ValidationResult.errors :=
                     ["Missing required field: symbol"] |} in
  validateSchema x schema = Normal result
  ∧ length (ValidationResult.errors result) ≤ 3.
Proof.
  intros x schema result. split; [reflexivity|].
  apply (validateSchema_errors_sublist x schema result). reflexivity.
Defined.

(** X3.  On plain records, more keys never means more errors: when a record
    is extended, the errors of the extended record are a sublist of the
    errors of the original, and a valid record stays valid. *)
Theorem validateSchema_more_keys_fewer_errors (props props' : object)
    (schema : Schema.t) :
  plain props → plain props' → props ⊆ props' →
  ∃ result result',
    validateSchema (VObj props) schema = Normal result
    ∧ validateSchema (VObj props') schema = Normal result'
    ∧ ValidationResult.errors result'
        `sublist_of` ValidationResult.errors result
    ∧ (ValidationResult.isValid result = true →
       ValidationResult.isValid result' = true).
Proof.
  intros Hplain Hplain' Hsub.
  rewrite !validateSchema_plain by done. cbn zeta.
  eexists _, _. split; [done|]. split; [done|]. simpl.
  assert (((λ field, "Missing required field: " +:+ field)
             <$> filter (λ field, props' !! field = None)
                   (Schema.required schema))
          `sublist_of`
          ((λ field, "Missing required field: " +:+ field)
             <$> filter (λ field, props !! field = None)
                   (Schema.required schema))) as Herrors.
  { apply fmap_sublist, filter_sublist_impl. intros field _ Hnone.
    destruct (props !! field) as [v|] eqn:Hfield; [|done].
    by rewrite (lookup_weaken _ _ _ _ Hfield Hsub) in Hnone. }
  split; [done|].
  rewrite !Nat.eqb_eq. intros Hzero.
  apply sublist_length in Herrors. lia.
Qed.

Lemma validateSchema_more_keys_fewer_errors_witness :
  let props : object := {[ "id" := VStr "x" ]} in
  let props' : object := {[ "id" := VStr "x"; "symbol" := VStr "TFUEL" ]} in
  let schema := {| Schema.required := ["id"; "name"; "symbol"];
                   Schema.optional := [] |} in
  ∃ result result',
    validateSchema (VObj props) schema = Normal result
    ∧ validateSchema (VObj props') schema = Normal result'
    ∧ ValidationResult.errors result'
        `sublist_of` ValidationResult.errors result
    ∧ (ValidationResult.isValid result = true →
       ValidationResult.isValid result' = true).
Proof.
  intros props props' schema.
  apply (validateSchema_more_keys_fewer_errors props props' schema).
  - reflexivity.
  - reflexivity.
  - apply map_subseteq_spec. intros field v Hfield.
    apply lookup_singleton_Some in Hfield as [<- <-]. reflexivity.
Defined.

(** X4.  A number or a boolean has no own properties: validating one
    reports every required field as missing, in order, and throws nothing;
    it is valid only against a schema that requires nothing. *)
Theorem validateSchema_primitive_all_missing (schema : Schema.t) :
  ∀ x, (∃ n, x = VNum n) ∨ (∃ b, x = VBool b) →
  validateSchema x schema
  = Normal {| ValidationResult.isValid :=
                (length (Schema.required schema) =? 0)%nat;
              ValidationResult.errors :=
                (λ field, "Missing required field: " +:+ field)
                  <$> Schema.required schema |}.
Proof.
  intros x Hx.
  assert (∀ field, hasOwnProperty x field = Normal ((λ _, false) field))
    as Hprobe by (by destruct Hx as [[n ->]|[b ->]]).
  unfold validateSchema, forEach.
  rewrite (forEach_from_push_unless (λ _, false)) by (intros; apply Hprobe).
  simpl.
  assert (filter (λ _ : string, false = false) (Schema.required schema)
          = Schema.required schema) as ->.
  { induction (Schema.required schema) as [|f l IH]; [done|].
    by rewrite filter_cons_True, IH. }
  by rewrite length_fmap.
Qed.

Lemma validateSchema_primitive_all_missing_witness :
  validateSchema (VNum 42)
    {| Schema.required := ["t"; "o"]; Schema.optional := [] |}
  = Normal {| ValidationResult.isValid := false;
              ValidationResult.errors := ["Missing required field: t";
                                          "Missing required field: o"] |}.
Proof.
  apply (validateSchema_primitive_all_missing
           {| Schema.required := ["t"; "o"]; Schema.optional := [] |}
           (VNum 42)).
  left. by exists 42%Z.
Defined.

(** ** Array validation: how it composes *)

(** X5.  An array whose elements all validate is valid exactly when each of
    its elements is valid on its own. *)
Theorem validateArraySchema_valid_iff_all_valid (items : list value)
    (schema : Schema.t) (validations : list ValidationResult.t) :
  Forall2 (λ item validation, validateSchema item schema = Normal validation)
    items validations →
  ∃ result,
    validateArraySchema (VArr items) schema = Normal result
    ∧ (ValidationResult.isValid result = true
       ↔ Forall (λ validation, ValidationResult.isValid validation = true)
           validations).
Proof.
  intros Hitems. unfold validateArraySchema, forEach.
  cbn [Array_isArray negb elements].
  rewrite (forEach_from_items _ _ _ Hitems). cbn [mbind completion_bind].
  eexists. split; [reflexivity|]. cbn [ValidationResult.isValid app].
  rewrite Nat.eqb_eq, length_zero_iff_nil.
  generalize 0.
  induction Hitems as [|item validation items validations Hitem _ IH];
    intros index.
  - split; [constructor | done].
  - rewrite imap_cons. cbn [concat]. rewrite Nat.add_0_r.
    rewrite Forall_cons, (validateSchema_isValid_length _ _ _ Hitem).
    rewrite Nat.eqb_eq, length_zero_iff_nil.
    rewrite <- (IH (S index)).
    assert (imap ((λ i validation, itemErrors (index + i) validation) ∘ S)
              validations
            = imap (λ i validation, itemErrors (S index + i) validation)
                validations) as ->.
    { apply imap_ext. intros i v _. simpl. by rewrite Nat.add_succ_r. }
    unfold itemErrors at 1.
    split.
    + intros Happ. apply app_eq_nil in Happ as [Hhead Htail].
      by apply fmap_nil_inv in Hhead.
    + intros [-> ->]. done.
Qed.

Lemma validateArraySchema_valid_iff_all_valid_witness :
  let items := [VObj {[ "id" := VStr "a"; "symbol" := VStr "A" ]};
                VObj {[ "id" := VStr "b"; "symbol" := VStr "B" ]}] in
  let schema := {| Schema.required := ["id"; "symbol"];
                   Schema.optional := [] |} in
  ∃ result,
    validateArraySchema (VArr items) schema = Normal result
    ∧ ValidationResult.isValid result = true.
Proof.
  intros items schema.
  destruct (validateArraySchema_valid_iff_all_valid items schema
    [ {| ValidationResult.isValid := true; ValidationResult.errors := [] |};
      {| ValidationResult.isValid := true; ValidationResult.errors := [] |} ])
    as (result & Hresult & Hvalid).
  - repeat constructor.
  - exists result. split; [exact Hresult|].
    apply Hvalid. repeat constructor.
Defined.

(** X6.  Validating the concatenation of two arrays gives the errors of the
    first followed by the errors of the second, the second's items numbered
    from the length of the first. *)
Theorem validateArraySchema_app (items items' : list value)
    (schema : Schema.t) (validations validations' : list ValidationResult.t) :
  Forall2 (λ item validation, validateSchema item schema = Normal validation)
    items validations →
  Forall2 (λ item validation, validateSchema item schema = Normal validation)
    items' validations' →
  ∃ result result' both,
    validateArraySchema (VArr items) schema = Normal result
    ∧ validateArraySchema (VArr items') schema = Normal result'
    ∧ validateArraySchema (VArr (items ++ items')) schema = Normal both
    ∧ ValidationResult.errors result = concat (imap itemErrors validations)
    ∧ ValidationResult.errors result' = concat (imap itemErrors validations')
    ∧ ValidationResult.errors both
      = ValidationResult.errors result
        ++ concat (imap (λ i, itemErrors (length items + i)) validations').
Proof.
  intros Hitems Hitems'.
  pose proof (Forall2_app Hitems Hitems') as Hboth.
  unfold validateArraySchema, forEach. cbn [Array_isArray negb elements].
  rewrite (forEach_from_items _ _ _ Hitems),
    (forEach_from_items _ _ _ Hitems'), (forEach_from_items _ _ _ Hboth).
  cbn [mbind completion_bind].
  eexists _, _, _. do 5 (split; [reflexivity|]).
  cbn [ValidationResult.errors app Nat.add].
  by rewrite imap_app, concat_app, (Forall2_length _ _ _ Hitems).
Qed.

Lemma validateArraySchema_app_witness :
  let schema := {| Schema.required := ["id"]; Schema.optional := [] |} in
  ∃ both,
    validateArraySchema
      (VArr ([VObj {[ "id" := VStr "a" ]}; VObj ∅] ++ [VObj ∅])) schema
    = Normal both
    ∧ ValidationResult.errors both
      = ["Item 1: Missing required field: id";
         "Item 2: Missing required field: id"].
Proof.
  intros schema.
  destruct (validateArraySchema_app
    [VObj {[ "id" := VStr "a" ]}; VObj ∅] [VObj ∅] schema
    [ {| ValidationResult.isValid := true; ValidationResult.errors := [] |};
      {| ValidationResult.isValid := false;
         ValidationResult.errors := ["Missing required field: id"] |} ]
    [ {| ValidationResult.isValid := false;
         ValidationResult.errors := ["Missing required field: id"] |} ])
    as (result & result' & both & Hresult & _ & Hboth & Herrors & _ & Happ).
  - repeat constructor.
  - repeat constructor.
  - exists both. split; [exact Hboth|].
    rewrite Happ, Herrors. reflexivity.
Defined.

(** X7.  A [null] element makes the array validation throw a [TypeError]
    instead of reporting an error for that item, as soon as the schema
    requires a field and the elements before it validate. *)
Theorem validateArraySchema_null_element_throws (before after : list value)
    (schema : Schema.t) (validations : list ValidationResult.t) :
  Forall2 (λ item validation, validateSchema item schema = Normal validation)
    before validations →
  Schema.required schema ≠ [] →
  validateArraySchema (VArr (before ++ VNull :: after)) schema
  = Throw (TypeError
             "Cannot read properties of null (reading 'hasOwnProperty')").
Proof.
  intros Hbefore Hreq.
  apply (validateArraySchema_throw schema before after validations);
    [done|].
  unfold validateSchema, forEach.
  destruct (Schema.required schema) as [|field rest]; [done|].
  by erewrite forEach_from_throw.
Qed.

Lemma validateArraySchema_null_element_throws_witness :
  validateArraySchema
    (VArr ([VObj {[ "id" := VStr "a" ]}] ++ VNull :: [VObj ∅]))
    {| Schema.required := ["id"]; Schema.optional := [] |}
  = Throw (TypeError
             "Cannot read properties of null (reading 'hasOwnProperty')").
Proof.
  apply (validateArraySchema_null_element_throws
    [VObj {[ "id" := VStr "a" ]}] [VObj ∅]
    {| Schema.required := ["id"]; Schema.optional := [] |}
    [ {| ValidationResult.isValid := true;
         ValidationResult.errors := [] |} ]).
  - repeat constructor.
  - discriminate.
Defined.

Lemma validateArraySchema_plain_records_witness :
  let records : list object :=
    [ {[ "id" := VStr "a"; "symbol" := VStr "A" ]}; {[ "id" := VStr "b" ]} ] in
  let schema := {| Schema.required := ["id"; "symbol"];
                   Schema.optional := [] |} in
  Forall plain records
  ∧ ∃ validations,
      Forall2 (λ props validation,
          validateSchema (VObj props) schema = Normal validation)
        records validations
      ∧ validateArraySchema (VArr (VObj <$> records)) schema
        = let errors := concat (imap itemErrors validations) in
          Normal {| ValidationResult.isValid := (length errors =? 0)%nat;
                    ValidationResult.errors := errors |}.
Proof.
  intros records schema.
  assert (Forall plain records) as Hplain by (repeat constructor).
  split; [exact Hplain|].
  exact (validateArraySchema_plain_records records schema Hplain).
Defined.

Lemma validateSchema_extra_key_witness :
  let props : object := {[ "id" := VStr "x" ]} in
  let schema := {| Schema.required := ["id"; "symbol"];
                   Schema.optional := ["logo"] |} in
  validateSchema (VObj (<["logo" := VStr "l.png"]> props)) schema
  = validateSchema (VObj props) schema.
Proof.
  intros props schema.
  apply (validateSchema_extra_key props schema "logo" (VStr "l.png")).
  - reflexivity.
  - discriminate.
  - intros Hin. repeat (apply elem_of_cons in Hin as [Hin|Hin];
      [discriminate Hin|]). by apply elem_of_nil in Hin.
Defined.

Lemma validateSchema_plain_isValid_witness :
  let props : object := {[ "t" := VArr []; "s" := VStr "ok" ]} in
  let schema := {| Schema.required := ["t"; "s"]; Schema.optional := [] |} in
  ∃ result, validateSchema (VObj props) schema = Normal result
    ∧ (ValidationResult.isValid result = true
       ↔ ∀ field, field ∈ Schema.required schema → is_Some (props !! field)).
Proof.
  intros props schema.
  apply (validateSchema_plain_isValid props schema). reflexivity.
Defined.

(** X11.  On a plain record the errors are exactly the messages
    ["Missing required field: <key>"] of the required keys the record
    lacks, one per declaration of the key, in declaration order: the
    validator goes on past the first missing field. *)
Theorem validateSchema_reports_missing_in_order (props : object)
    (schema : Schema.t) :
  plain props →
  ∃ result,
    validateSchema (VObj props) schema = Normal result
    ∧ ValidationResult.errors result
      = (λ field, "Missing required field: " +:+ field)
          <$> filter (λ field, props !! field = None) (Schema.required schema).
Proof.
  intros Hplain. rewrite (validateSchema_plain _ _ Hplain). by eexists.
Qed.

Lemma validateSchema_reports_missing_in_order_witness :
  ∃ result,
    validateSchema (VObj {[ "name" := VStr "y" ]})
      {| Schema.required := ["id"; "name"; "symbol"; "id"];
         Schema.optional := [] |}
    = Normal result
    ∧ ValidationResult.errors result
      = ["Missing required field: id"; "Missing required field: symbol";
         "Missing required field: id"].
Proof.
  destruct (validateSchema_reports_missing_in_order {[ "name" := VStr "y" ]}
    {| Schema.required := ["id"; "name"; "symbol"; "id"];
       Schema.optional := [] |}) as (result & Hresult & Herrors).
  - reflexivity.
  - exists result. split; [exact Hresult|].
    injection Hresult as <-. reflexivity.
Defined.

(** ** Request executor: the configuration sent *)

(** X12.  The configuration handed to the transport has the options [url],
    [timeout] and [headers] and the caller's own, and no other: the helper
    sets no method, body or parameter by itself. *)
Theorem requestConfig_dom (endpoint : string) (options : option object) :
  dom (requestConfig endpoint options)
  = {[ "url"; "timeout"; "headers" ]} ∪ dom (default ∅ options).
Proof.
  unfold requestConfig, spread, defaultOptions. cbn zeta.
  rewrite !dom_union_L, !dom_insert_L, !dom_singleton_L.
  apply set_eq. intros key.
  rewrite !elem_of_union, !elem_of_singleton. tauto.
Qed.

(** X13.  The URL requested is the base URL followed by the endpoint as
    given, with nothing inserted or encoded, unless the caller's options
    carry a [url] of their own, which then replaces it. *)
Theorem requestConfig_url (endpoint : string) (options : option object) :
  requestConfig endpoint options !! "url"
  = Some (default (VStr (config.baseURL +:+ endpoint))
            (default ∅ options !! "url")).
Proof.
  rewrite requestConfig_lookup.
  destruct (default ∅ options !! "url"); done.
Qed.

Lemma requestConfig_caller_witness :
  let options : object :=
    {[ "method" := VStr "POST";
       "data" := VObj {[ "invalid" := VStr "data" ]} ]} in
  requestConfig "/api/tokens" (Some options) !! "method" = Some (VStr "POST").
Proof.
  intros options.
  apply (requestConfig_caller "/api/tokens" options "method" (VStr "POST")).
  reflexivity.
Defined.

(** ** Performance timer: errors, limits, composition *)

Lemma measurePerformance_throw_witness :
  let requestFn : task Z value :=
    λ w, (Throw (TypeError "fetch failed"), (w + 20)%Z) in
  measurePerformance id requestFn (Some 1000%Z) 5000%Z
  = (Throw (TypeError "fetch failed"), 5020%Z).
Proof.
  intros requestFn.
  apply (measurePerformance_throw id requestFn (Some 1000%Z) 5000%Z 5020%Z).
  reflexivity.
Defined.

(** X16.  The limit is advisory: it is not used to stop or alter the
    operation.  Measuring the same operation in the same world under two
    limits gives the same duration, the same response and the same final
    world, and the result is within the limit exactly when the difference of
    the clock readings is at most the limit (the bound included), so a
    result within a limit is within every larger one. *)
Theorem measurePerformance_limit_advisory {World A : Type} (clock : World → Z)
    (requestFn : task World A) (limit limit' : Z) (w w' : World)
    (resolved : A) :
  requestFn w = (Normal resolved, w') →
  ∃ result result',
    measurePerformance clock requestFn (Some limit) w = (Normal result, w')
    ∧ measurePerformance clock requestFn (Some limit') w
      = (Normal result', w')
    ∧ PerformanceResult.duration result = PerformanceResult.duration result'
    ∧ PerformanceResult.response result = PerformanceResult.response result'
    ∧ (PerformanceResult.isWithinLimit result = true
       ↔ (clock w' - clock w ≤ limit)%Z)
    ∧ ((limit ≤ limit')%Z →
       PerformanceResult.isWithinLimit result = true →
       PerformanceResult.isWithinLimit result' = true).
Proof.
  intros Hfn.
  unfold measurePerformance, mbind, mret, task_bind, task_ret, Date_now.
  rewrite Hfn. eexists _, _. do 4 (split; [reflexivity|]). simpl.
  rewrite !Z.leb_le. split; [done|]. lia.
Qed.

Lemma measurePerformance_limit_advisory_witness :
  let requestFn : task Z value := λ w, (Normal (VStr "ok"), (w + 5000)%Z) in
  ∃ result result',
    measurePerformance id requestFn (Some 5000%Z) 100%Z = (Normal result, 5100%Z)
    ∧ measurePerformance id requestFn (Some 4999%Z) 100%Z
      = (Normal result', 5100%Z)
    ∧ PerformanceResult.isWithinLimit result = true
    ∧ PerformanceResult.isWithinLimit result' = false.
Proof.
  intros requestFn.
  destruct (measurePerformance_limit_advisory id requestFn 5000%Z 4999%Z
              100%Z 5100%Z (VStr "ok"))
    as (result & result' & Hrun & Hrun' & _).
  - reflexivity.
  - exists result, result'. split; [exact Hrun|]. split; [exact Hrun'|].
    injection Hrun as <-. injection Hrun' as <-. split; reflexivity.
Defined.

(** X17.  Measuring a request throws only when the transport rejects with
    [null] or [undefined]: then the [TypeError] of [makeRequest]'s catch
    block leaves the timer, which has no handler.  On every other outcome
    the timer returns a result, whose response is the response
    [makeRequest] normalized (the one received, or status 0 when none was)
    and whose duration is the difference of the clock readings.  Either way
    the world is left as the transport's call left it. *)
Theorem measurePerformance_makeRequest_returns {World : Type}
    (clock : World → Z)
    (axios : object → World → completion rejection Response.t * World)
    (endpoint : string) (options : option object) (maxTime : option Z)
    (w : World) :
  let outcome := axios (requestConfig endpoint options) w in
  let measured :=
    measurePerformance clock (makeRequest_task axios endpoint options)
      maxTime w in
  match outcome.1 with
  | Throw RejectNull | Throw RejectUndefined =>
      ∃ msg, measured = (Throw (TypeError msg), outcome.2)
  | _ =>
      ∃ result,
        measured = (Normal result, outcome.2)
        ∧ makeRequest (λ _, outcome.1) endpoint options
          = Normal (PerformanceResult.response result)
        ∧ match received outcome.1 with
          | Some response => PerformanceResult.response result = response
          | None => Response.status (PerformanceResult.response result) = 0%Z
          end
        ∧ PerformanceResult.duration result = (clock outcome.2 - clock w)%Z
  end.
Proof.
  intros outcome measured. subst measured.
  unfold measurePerformance, mbind, mret, task_bind, task_ret, Date_now,
    makeRequest_task.
  fold outcome. unfold makeRequest, received.
  destruct outcome.1 as [response|[error| |]]; simpl.
  - eexists. by repeat split.
  - destruct (AxiosError.response error) as [response|].
    + eexists. by repeat split.
    + destruct (AxiosError.request error); eexists; by repeat split.
  - by eexists.
  - by eexists.
Qed.

(** ** Test case wrapper *)

(** X19.  [createTestCase] registers one test under the given name with the
    configured test timeout.  The registered body passes exactly when
    [testFn] resolves and throws exactly when [testFn] throws, leaving the
    world as [testFn] left it: no failure is swallowed and none is added.
    What it throws is the error [testFn] threw, except that a thrown [null]
    or [undefined] comes out as the [TypeError] of reading [error.message]
    in the catch block. *)
Theorem createTestCase_transparent {World A R : Type}
    (test : string → task World unit → Z → R) (name : string)
    (testFn : task World A) :
  ∃ body : task World unit,
    createTestCase test name testFn = test name body config.timeouts.test
    ∧ ∀ w,
        (body w).2 = (testFn w).2
        ∧ ((body w).1 = Normal tt ↔ ∃ a, (testFn w).1 = Normal a)
        ∧ ((∃ error, (body w).1 = Throw error)
           ↔ ∃ error, (testFn w).1 = Throw error)
        ∧ (∀ error,
             (testFn w).1 = Throw error →
             error ≠ ThrownValue VNull → error ≠ ThrownValue VUndefined →
             (body w).1 = Throw error)
        ∧ ((testFn w).1 = Throw (ThrownValue VNull)
           ∨ (testFn w).1 = Throw (ThrownValue VUndefined) →
           ∃ msg, (body w).1 = Throw (TypeError msg)).
Proof.
  eexists. split; [reflexivity|]. intros w.
  unfold task_try_catch, task_throw, task_step, mbind, mret, task_bind,
    task_ret.
  destruct (testFn w) as [[a|e] w']; simpl.
  - split; [done|]. split; [by split; [eexists|]|].
    split; [by split; intros [? ?]|]. split; [done|]. by intros [?|?].
  - assert ((∃ msg, exn_message e = Throw (TypeError msg)
                    ∧ (e = ThrownValue VNull ∨ e = ThrownValue VUndefined))
            ∨ (∃ v, exn_message e = Normal v
                    ∧ e ≠ ThrownValue VNull ∧ e ≠ ThrownValue VUndefined))
      as [(msg & -> & Hnullish)|(v & -> & Hnull & Hundefined)].
    { destruct e as [msg|name' msg|[| | | | | |props]]; simpl;
        try (right; by eexists); left; eexists; split; eauto. }
    + simpl. split; [done|]. split; [by split; [|intros [? ?]]|].
      split; [by split; eexists|].
      split; [|by eexists].
      intros error [= <-] Hnull Hundefined. by destruct Hnullish.
    + simpl. split; [done|]. split; [by split; [|intros [? ?]]|].
      split; [by split; eexists|].
      split; [by intros error [= <-]|].
      intros [[= ->]|[= ->]]; done.
Qed.

(** ** Request executor: when it returns *)

(** X20.  [makeRequest] throws only when the transport rejects with [null]
    or [undefined], and then with a [TypeError].  When the transport
    resolves, or rejects with an error object, it returns a response record:
    the response received, whatever its status and whichever path delivered
    it, and a record of status 0 when none was received. *)
Theorem makeRequest_returns_unless_nullish (axios : transport)
    (endpoint : string) (options : option object) :
  match axios (requestConfig endpoint options) with
  | Throw RejectNull | Throw RejectUndefined =>
      ∃ msg, makeRequest axios endpoint options = Throw (TypeError msg)
  | outcome =>
      ∃ result,
        makeRequest axios endpoint options = Normal result
        ∧ match received outcome with
          | Some response => result = response
          | None => Response.status result = 0%Z
          end
  end.
Proof.
  unfold makeRequest, received.
  case_outcome axios endpoint options; by eexists.
Qed.
